(** * Ideas CRUD service: data model, record store and server endpoints

    Shallow embedding of [src/db.rs], [src/server_functions.rs] and the
    client-side list handling of [src/components/idea_form.rs] and
    [src/views/idea_development.rs]. *)

From Stdlib Require Import String Ascii List Bool.
From stdpp Require Import base gmap strings list.
Import ListNotations.

Open Scope string_scope.

(* ------------------------------------------------------------------ *)
(** ** Results *)

(** Rust's [Result<T, E>]. *)
Inductive result (E A : Type) : Type :=
| Ok (a : A)
| Err (e : E).
Arguments Ok {E A} a.
Arguments Err {E A} e.

(* ------------------------------------------------------------------ *)
(** ** Data model ([src/db.rs]) *)

(** [surrealdb::sql::Thing]: a table name and a record key. *)
Record Thing := mkThing { tb : string; key : string }.

(** Modelled from the spec: [Thing::to_string] belongs to the database
    library; the spec renders a record id as ["<table>:<key>"]. *)
Definition thing_to_string (t : Thing) : string := tb t ++ ":" ++ key t.

(** [pub struct Idea] (shared between client and server). *)
Module Idea.
Record t := mk {
  id : option string;
  title : string;
  description : string;
  tags : list string;
  what_must_be_true : list string;
  development_notes : string
}.
End Idea.

(** [pub struct IdeaRecord] (server side, with the store's id type). *)
Module IdeaRecord.
Record t := mk {
  id : option Thing;
  title : string;
  description : string;
  tags : list string;
  what_must_be_true : list string;
  development_notes : string
}.
End IdeaRecord.

(** [impl From<IdeaRecord> for Idea]. *)
Definition idea_of_record (record : IdeaRecord.t) : Idea.t :=
  {| Idea.id := option_map thing_to_string (IdeaRecord.id record);
     Idea.title := IdeaRecord.title record;
     Idea.description := IdeaRecord.description record;
     Idea.tags := IdeaRecord.tags record;
     Idea.what_must_be_true := IdeaRecord.what_must_be_true record;
     Idea.development_notes := IdeaRecord.development_notes record |}.

(* ------------------------------------------------------------------ *)
(** ** Record store *)

(** Modelled from the spec: the document database behind [get_db()] is
    not part of the repository. Its state is the set of stored documents,
    keyed by (table, key), and an optional failure: when [db_fault] is
    [Some e], every call fails with the store error [e] (section 4.1 and
    error kind (c) of section 7). *)
Record Db := mkDb {
  db_docs : gmap (string * string) IdeaRecord.t;
  db_fault : option string
}.

(** A store call: reads and updates the store, may fail with a store
    error message. *)
Definition store_call (A : Type) : Type := Db -> result string A * Db.

Definition with_docs (db : Db) (docs : gmap (string * string) IdeaRecord.t) : Db :=
  mkDb docs (db_fault db).

Definition set_thing (t : Thing) (r : IdeaRecord.t) : IdeaRecord.t :=
  IdeaRecord.mk (Some t) (IdeaRecord.title r) (IdeaRecord.description r)
    (IdeaRecord.tags r) (IdeaRecord.what_must_be_true r)
    (IdeaRecord.development_notes r).

(** Modelled from the spec: [create(table, content)] stores the content
    under a fresh key chosen by the store ([k]) and returns the stored
    document with its id. *)
Definition db_create (table k : string) (content : IdeaRecord.t)
  : store_call (option IdeaRecord.t) :=
  fun db =>
    match db_fault db with
    | Some e => (Err e, db)
    | None =>
        match db_docs db !! (table, k) with
        | Some _ => (Err "Database record already exists", db)
        | None =>
            let r := set_thing (mkThing table k) content in
            (Ok (Some r), with_docs db (<[(table, k) := r]> (db_docs db)))
        end
    end.

(** Modelled from the spec: [select_all(table)] returns every document
    stored under [table], in the store's order. *)
Definition db_select_all (table : string) : store_call (list IdeaRecord.t) :=
  fun db =>
    match db_fault db with
    | Some e => (Err e, db)
    | None =>
        (Ok (map snd (filter (fun kv => kv.1.1 = table) (map_to_list (db_docs db)))), db)
    end.

(** Modelled from the spec: [select_one(table, key)]; absence is [None],
    not an error. *)
Definition db_select (table k : string) : store_call (option IdeaRecord.t) :=
  fun db =>
    match db_fault db with
    | Some e => (Err e, db)
    | None => (Ok (db_docs db !! (table, k)), db)
    end.

(** Modelled from the spec: [update(table, key, content)] replaces the
    whole document at [table:key] (the path id is authoritative) or
    returns [None] when there is no such document. *)
Definition db_update (table k : string) (content : IdeaRecord.t)
  : store_call (option IdeaRecord.t) :=
  fun db =>
    match db_fault db with
    | Some e => (Err e, db)
    | None =>
        match db_docs db !! (table, k) with
        | None => (Ok None, db)
        | Some _ =>
            let r := set_thing (mkThing table k) content in
            (Ok (Some r), with_docs db (<[(table, k) := r]> (db_docs db)))
        end
    end.

(** Modelled from the spec: [delete(table, key)] removes and returns the
    document, or returns [None]. *)
Definition db_delete (table k : string) : store_call (option IdeaRecord.t) :=
  fun db =>
    match db_fault db with
    | Some e => (Err e, db)
    | None => (Ok (db_docs db !! (table, k)), with_docs db (delete (table, k) (db_docs db)))
    end.

(* ------------------------------------------------------------------ *)
(** ** Strings *)

(** [str::split(c)] with a single character pattern: [""] gives [[""]],
    and [n] separators always give [n+1] parts. *)
Fixpoint split_on (c : ascii) (s : string) : list string :=
  match s with
  | EmptyString => [""]
  | String x rest =>
      if Ascii.eqb x c then "" :: split_on c rest
      else match split_on c rest with
           | h :: tl => String x h :: tl
           | [] => [String x ""]
           end
  end.

Example split_on_ex1 : split_on ":" "ideas:xyz" = ["ideas"; "xyz"].
Proof. reflexivity. Qed.
Example split_on_ex2 : split_on ":" "ideas:" = ["ideas"; ""].
Proof. reflexivity. Qed.
Example split_on_ex3 : split_on ":" "a:b:c" = ["a"; "b"; "c"].
Proof. reflexivity. Qed.

(* ------------------------------------------------------------------ *)
(** ** Server endpoints ([src/server_functions.rs]) *)

(** The [ServerFnError] values the endpoints build, one constructor per
    message shape. *)
Inductive ServerFnError :=
| InvalidIdFormat (id : string)   (* "Invalid ID format: {id}" *)
| IdeaNotFound (id : string)      (* "Idea not found: {id}" *)
| FailedToCreate                  (* "Failed to create idea" *)
| StoreError (msg : string).      (* a store error, passed through or wrapped *)

Definition error_message (e : ServerFnError) : string :=
  match e with
  | InvalidIdFormat id => "Invalid ID format: " ++ id
  | IdeaNotFound id => "Idea not found: " ++ id
  | FailedToCreate => "Failed to create idea"
  | StoreError msg => msg
  end.

Definition is_format_error (e : ServerFnError) : bool :=
  match e with InvalidIdFormat _ => true | _ => false end.

Definition is_not_found (e : ServerFnError) : bool :=
  match e with IdeaNotFound _ => true | _ => false end.

(** An endpoint: a request handler over the store. *)
Definition endpoint (A : Type) : Type := Db -> result ServerFnError A * Db.

(** [submit_idea_server]. [k] is the key the store picks for the new
    document in [db.create("ideas")]. *)
Definition submit_idea_server (k : string) (title description : string)
  (tags : list string) : endpoint Idea.t :=
  fun db =>
    let idea := IdeaRecord.mk None title description tags [] "" in
    match db_create "ideas" k idea db with
    | (Err e, db') => (Err (StoreError e), db')
    | (Ok None, db') => (Err FailedToCreate, db')
    | (Ok (Some created), db') => (Ok (idea_of_record created), db')
    end.

(** [get_all_ideas_server]. *)
Definition get_all_ideas_server : endpoint (list Idea.t) :=
  fun db =>
    match db_select_all "ideas" db with
    | (Err e, db') => (Err (StoreError e), db')
    | (Ok ideas, db') => (Ok (map idea_of_record ideas), db')
    end.

(** [delete_idea_server]: the optional deleted record is discarded. *)
Definition delete_idea_server (id : string) : endpoint unit :=
  fun db =>
    match split_on ":" id with
    | [table; record_id] =>
        match db_delete table record_id db with
        | (Err e, db') =>
            (Err (StoreError ("Delete failed for ID " ++ id ++ ": " ++ e)), db')
        | (Ok _deleted, db') => (Ok tt, db')
        end
    | _ => (Err (InvalidIdFormat id), db)
    end.

(** [get_idea_by_id_server]. *)
Definition get_idea_by_id_server (id : string) : endpoint Idea.t :=
  fun db =>
    match split_on ":" id with
    | [table; record_id] =>
        match db_select table record_id db with
        | (Err e, db') =>
            (Err (StoreError ("Failed to get idea " ++ id ++ ": " ++ e)), db')
        | (Ok (Some record), db') => (Ok (idea_of_record record), db')
        | (Ok None, db') => (Err (IdeaNotFound id), db')
        end
    | _ => (Err (InvalidIdFormat id), db)
    end.

(** [update_idea_server]: the content is built with [id: None]. *)
Definition update_idea_server (id title description : string)
  (tags what_must_be_true : list string) (development_notes : string)
  : endpoint Idea.t :=
  fun db =>
    match split_on ":" id with
    | [table; record_id] =>
        let updated := IdeaRecord.mk None title description tags
                         what_must_be_true development_notes in
        match db_update table record_id updated db with
        | (Err e, db') =>
            (Err (StoreError ("Failed to update idea " ++ id ++ ": " ++ e)), db')
        | (Ok (Some record), db') => (Ok (idea_of_record record), db')
        | (Ok None, db') => (Err (IdeaNotFound id), db')
        end
    | _ => (Err (InvalidIdFormat id), db)
    end.

(** A store with no documents and no failure. *)
Definition empty_db : Db := mkDb ∅ None.

Example submit_get_ex :
  let '(r, db1) := submit_idea_server "k1" "Test Idea" "d" ["a"; "b"] empty_db in
  fst (get_idea_by_id_server "ideas:k1" db1)
  = Ok (Idea.mk (Some "ideas:k1") "Test Idea" "d" ["a"; "b"] [] "").
Proof. vm_compute. reflexivity. Qed.

(* ------------------------------------------------------------------ *)
(** ** Client-side list handling *)

(** Rust's [String] holds UTF-8; a [string] here is its byte sequence.
    [split(',')], [split(':')], equality and [is_empty] act on the bytes
    as they act on the characters: an ASCII byte never occurs inside a
    multi-byte sequence. *)

(** [char::is_whitespace] (the Unicode White_Space property), by the
    UTF-8 encoding of the character. One byte: U+0009..U+000D, U+0020. *)
Definition is_whitespace1 (b : nat) : bool :=
  (Nat.leb 9 b && Nat.leb b 13) || Nat.eqb b 32.

(** Two bytes: U+0085, U+00A0. *)
Definition is_whitespace2 (b1 b2 : nat) : bool :=
  Nat.eqb b1 0xC2 && (Nat.eqb b2 0x85 || Nat.eqb b2 0xA0).

(** Three bytes: U+1680, U+2000..U+200A, U+2028, U+2029, U+202F, U+205F,
    U+3000. *)
Definition is_whitespace3 (b1 b2 b3 : nat) : bool :=
  (Nat.eqb b1 0xE1 && Nat.eqb b2 0x9A && Nat.eqb b3 0x80) ||
  (Nat.eqb b1 0xE2 && Nat.eqb b2 0x80 &&
     ((Nat.leb 0x80 b3 && Nat.leb b3 0x8A) ||
      Nat.eqb b3 0xA8 || Nat.eqb b3 0xA9 || Nat.eqb b3 0xAF)) ||
  (Nat.eqb b1 0xE2 && Nat.eqb b2 0x81 && Nat.eqb b3 0x9F) ||
  (Nat.eqb b1 0xE3 && Nat.eqb b2 0x80 && Nat.eqb b3 0x80).

(** Removes one character of one, two or three bytes at the front of [s]
    when [w1], [w2] or [w3] accepts its bytes, read front to back;
    [None] when none does. *)
Definition strip_char (w1 : nat -> bool) (w2 : nat -> nat -> bool)
  (w3 : nat -> nat -> nat -> bool) (s : string) : option string :=
  match s with
  | String a r =>
      if w1 (nat_of_ascii a) then Some r else
      match r with
      | String b r' =>
          if w2 (nat_of_ascii a) (nat_of_ascii b) then Some r' else
          match r' with
          | String c r'' =>
              if w3 (nat_of_ascii a) (nat_of_ascii b) (nat_of_ascii c) then Some r''
              else None
          | EmptyString => None
          end
      | EmptyString => None
      end
  | EmptyString => None
  end.

(** A whitespace character at the front of [s]. *)
Definition ws_front (s : string) : option string :=
  strip_char is_whitespace1 is_whitespace2 is_whitespace3 s.

(** A whitespace character at the front of reversed bytes: its encoding
    is read last byte first. *)
Definition ws_front_rev (s : string) : option string :=
  strip_char is_whitespace1 (fun b2 b1 => is_whitespace2 b1 b2)
    (fun b3 b2 b1 => is_whitespace3 b1 b2 b3) s.

(** Applies [f] while it matches; each match removes at least one byte,
    so [length s] rounds always suffice. *)
Fixpoint strip_all (f : string -> option string) (fuel : nat) (s : string) : string :=
  match fuel with
  | O => s
  | S n => match f s with Some r => strip_all f n r | None => s end
  end.

Fixpoint string_rev (s : string) : string :=
  match s with
  | String c rest => string_rev rest ++ String c EmptyString
  | EmptyString => EmptyString
  end.

(** [str::trim_start]. *)
Definition trim_start (s : string) : string := strip_all ws_front (String.length s) s.

(** [str::trim_end], on the reversed bytes. *)
Definition trim_end (s : string) : string :=
  string_rev (strip_all ws_front_rev (String.length s) (string_rev s)).

(** [str::trim], that is [trim_matches(char::is_whitespace)]: both ends. *)
Definition trim (s : string) : string := trim_end (trim_start s).

(** U+00A0 (no-break space) and U+3000 (ideographic space) are trimmed. *)
Example trim_ex : trim (String (ascii_of_nat 0xC2) (String (ascii_of_nat 0xA0)
  ("x" ++ String (ascii_of_nat 0xE3) (String (ascii_of_nat 0x80)
  (String (ascii_of_nat 0x80) " "))))) = "x".
Proof. vm_compute. reflexivity. Qed.

(** [IdeaForm]'s tag parsing:
    [tags_input().split(',').map(|s| s.trim().to_string()).filter(|s| !s.is_empty()).collect()]. *)
Definition parse_tags (tags_input : string) : list string :=
  List.filter (fun s => negb (String.eqb s "")) (map trim (split_on "," tags_input)).

Example parse_tags_ex : parse_tags " a, ,b ,, c d " = ["a"; "b"; "c d"].
Proof. reflexivity. Qed.

(** A tag typed after a no-break space (U+00A0) loses it. *)
Example parse_tags_nbsp_ex :
  parse_tags (String (ascii_of_nat 0xC2) (String (ascii_of_nat 0xA0) "x, y")) = ["x"; "y"].
Proof. vm_compute. reflexivity. Qed.

(** [IdeaDevelopment]'s "+" button: [if !new_statement().is_empty()]
    push it and clear the input. Returns the new checklist, the new input
    and whether an auto-save is triggered. *)
Definition add_statement (what_must_be_true : list string) (new_statement : string)
  : list string * string * bool :=
  if negb (String.eqb new_statement "") then
    ((what_must_be_true ++ [new_statement])%list, "", true)
  else (what_must_be_true, new_statement, false).

(** [IdeaDevelopment]'s statement input: [list[idx] = e.value()];
    indexing out of range panics ([None]). *)
Definition edit_statement (what_must_be_true : list string) (idx : nat) (value : string)
  : option (list string) :=
  if Nat.ltb idx (length what_must_be_true) then Some (<[idx := value]> what_must_be_true)
  else None.

(* ------------------------------------------------------------------ *)
(** ** Serialization of [Idea] ([#[derive(Serialize, Deserialize)]]) *)

(** A JSON document. *)
#[local] Set Warnings "-register-all".
Inductive json :=
| JNull
| JBool (b : bool)
| JNum (n : Z)
| JStr (s : string)
| JArr (l : list json)
| JObj (fields : list (string * json)).

(** [Serialize] for [Idea]: fields in declaration order, [id] skipped
    when [None] ([skip_serializing_if = "Option::is_none"]). *)
Definition serialize_idea (i : Idea.t) : list (string * json) :=
  (match Idea.id i with Some s => [("id", JStr s)] | None => [] end ++
  [("title", JStr (Idea.title i));
   ("description", JStr (Idea.description i));
   ("tags", JArr (map JStr (Idea.tags i)));
   ("what_must_be_true", JArr (map JStr (Idea.what_must_be_true i)));
   ("development_notes", JStr (Idea.development_notes i))])%list.

Inductive DeError :=
| DuplicateField (f : string)
| MissingField (f : string)
| InvalidType (f : string).

Definition de_string (j : json) : option string :=
  match j with JStr s => Some s | _ => None end.

Fixpoint de_strings (l : list json) : option (list string) :=
  match l with
  | [] => Some []
  | j :: rest =>
      match de_string j, de_strings rest with
      | Some s, Some ss => Some (s :: ss)
      | _, _ => None
      end
  end.

Definition de_string_vec (j : json) : option (list string) :=
  match j with JArr l => de_strings l | _ => None end.

Definition de_option_string (j : json) : option (option string) :=
  match j with JNull => Some None | JStr s => Some (Some s) | _ => None end.

(** The fields seen so far by the derived map visitor. *)
Record Partial := mkPartial {
  p_id : option (option string);
  p_title : option string;
  p_description : option string;
  p_tags : option (list string);
  p_what_must_be_true : option (list string);
  p_development_notes : option string
}.

Definition partial_empty : Partial := mkPartial None None None None None None.

(** Storing one field: a duplicate or a value of the wrong type is an
    error. *)
Definition put_field {A} (f : string) (slot : option A) (v : option A)
  (k : A -> Partial) : result DeError Partial :=
  match slot with
  | Some _ => Err (DuplicateField f)
  | None => match v with Some a => Ok (k a) | None => Err (InvalidType f) end
  end.

(** One map entry; unknown keys are ignored. *)
Definition visit_entry (p : Partial) (kv : string * json) : result DeError Partial :=
  let '(f, j) := kv in
  let '(mkPartial i t d g w n) := p in
  if String.eqb f "id" then
    put_field f i (de_option_string j) (fun a => mkPartial (Some a) t d g w n)
  else if String.eqb f "title" then
    put_field f t (de_string j) (fun a => mkPartial i (Some a) d g w n)
  else if String.eqb f "description" then
    put_field f d (de_string j) (fun a => mkPartial i t (Some a) g w n)
  else if String.eqb f "tags" then
    put_field f g (de_string_vec j) (fun a => mkPartial i t d (Some a) w n)
  else if String.eqb f "what_must_be_true" then
    put_field f w (de_string_vec j) (fun a => mkPartial i t d g (Some a) n)
  else if String.eqb f "development_notes" then
    put_field f n (de_string j) (fun a => mkPartial i t d g w (Some a))
  else Ok p.

Fixpoint visit_map (p : Partial) (m : list (string * json)) : result DeError Partial :=
  match m with
  | [] => Ok p
  | kv :: rest =>
      match visit_entry p kv with
      | Ok p' => visit_map p' rest
      | Err e => Err e
      end
  end.

(** End of the map: a missing [Option] field is [None], a missing
    [#[serde(default)]] field takes its default, any other missing field
    is an error. *)
Definition finish (p : Partial) : result DeError Idea.t :=
  match p_title p, p_description p, p_tags p with
  | None, _, _ => Err (MissingField "title")
  | _, None, _ => Err (MissingField "description")
  | _, _, None => Err (MissingField "tags")
  | Some t, Some d, Some g =>
      Ok (Idea.mk (default None (p_id p)) t d g
            (default [] (p_what_must_be_true p)) (default "" (p_development_notes p)))
  end.

(** [Deserialize] for [Idea] from a JSON object. *)
Definition deserialize_idea (m : list (string * json)) : result DeError Idea.t :=
  match visit_map partial_empty m with
  | Ok p => finish p
  | Err e => Err e
  end.

(** The document of the [test_idea_default_fields] test. *)
Definition legacy_doc : list (string * json) :=
  [("id", JStr "ideas:test"); ("title", JStr "Old Idea");
   ("description", JStr "From before development fields existed");
   ("tags", JArr [JStr "old"])].

(* ------------------------------------------------------------------ *)
(** ** [IdeaDevelopment] view ([src/views/idea_development.rs]) *)

(** [Vec::remove(idx)]: shifts the tail left; panics ([None]) when
    [idx >= len]. *)
Fixpoint vec_remove {A} (l : list A) (idx : nat) : option (list A) :=
  match l, idx with
  | [], _ => None
  | _ :: rest, O => Some rest
  | x :: rest, S i => option_map (cons x) (vec_remove rest i)
  end.

(** The view's state once the idea has loaded: the fetched idea and the
    signals [what_must_be_true], [development_notes], [new_statement]. *)
Record DevState := mkDevState {
  dv_idea : Idea.t;
  dv_what_must_be_true : list string;
  dv_development_notes : string;
  dv_new_statement : string
}.

(** [use_resource] runs [get_idea_by_id_server(id)]; on [Ok idea] the
    [use_effect] seeds the edit buffers from it. *)
Definition dev_load (id : string) (db : Db) : option DevState :=
  match fst (get_idea_by_id_server id db) with
  | Ok idea => Some (mkDevState idea (Idea.what_must_be_true idea)
                       (Idea.development_notes idea) "")
  | Err _ => None
  end.

(** The arguments of one [update_idea_server] call spawned by
    [auto_save]. *)
Record SaveTask := mkSaveTask {
  sv_id : string;
  sv_title : string;
  sv_description : string;
  sv_tags : list string;
  sv_what_must_be_true : list string;
  sv_development_notes : string
}.

(** [auto_save]: reads the loaded idea, with
    [idea.id.clone().unwrap_or_default()], and the current signals when
    it is called, and spawns the update with them. *)
Definition auto_save_task (st : DevState) : SaveTask :=
  let idea := dv_idea st in
  mkSaveTask (default "" (Idea.id idea)) (Idea.title idea) (Idea.description idea)
    (Idea.tags idea) (dv_what_must_be_true st) (dv_development_notes st).

(** A spawned save, when the server handles it: one
    [update_idea_server] call, whose result is discarded ([let _ = ...]). *)
Definition run_save (t : SaveTask) (db : Db) : Db :=
  snd (update_idea_server (sv_id t) (sv_title t) (sv_description t) (sv_tags t)
         (sv_what_must_be_true t) (sv_development_notes t) db).

(** The save spawned from the view's state [st], once handled. *)
Definition auto_save (st : DevState) (db : Db) : Db := run_save (auto_save_task st) db.

(** The spawned saves run concurrently ([spawn]) and nothing orders
    them: the server handles those of [done] in the order of that list. *)
Definition run_saves (done : list SaveTask) (db : Db) : Db :=
  fold_left (fun db t => run_save t db) done db.

(** The user actions of the loaded view. *)
Inductive DevAction :=
| EditStatement (idx : nat) (value : string)  (* statement [idx]'s [oninput] *)
| RemoveStatement (idx : nat)                 (* its "x" button *)
| TypeNewStatement (value : string)           (* the "add" input's [oninput] *)
| AddStatement                                (* the "+" button *)
| EditNotes (value : string).                 (* the notes [oninput] *)

Definition set_checklist (st : DevState) (l : list string) : DevState :=
  mkDevState (dv_idea st) l (dv_development_notes st) (dv_new_statement st).

(** One action: the new state and the save it spawns, if any; [None] is
    a panic (index out of range). *)
Definition dev_step (st : DevState) (a : DevAction) : option (DevState * option SaveTask) :=
  match a with
  | EditStatement idx value =>
      match edit_statement (dv_what_must_be_true st) idx value with
      | Some l => let st' := set_checklist st l in Some (st', Some (auto_save_task st'))
      | None => None
      end
  | RemoveStatement idx =>
      match vec_remove (dv_what_must_be_true st) idx with
      | Some l => let st' := set_checklist st l in Some (st', Some (auto_save_task st'))
      | None => None
      end
  | TypeNewStatement value =>
      Some (mkDevState (dv_idea st) (dv_what_must_be_true st) (dv_development_notes st) value,
            None)
  | AddStatement =>
      match add_statement (dv_what_must_be_true st) (dv_new_statement st) with
      | (l, input, true) =>
          let st' := mkDevState (dv_idea st) l (dv_development_notes st) input in
          Some (st', Some (auto_save_task st'))
      | (_, _, false) => Some (st, None)
      end
  | EditNotes value =>
      let st' := mkDevState (dv_idea st) (dv_what_must_be_true st) value (dv_new_statement st) in
      Some (st', Some (auto_save_task st'))
  end.

(** A sequence of actions: the final state and the saves spawned, in the
    order they were spawned. *)
Fixpoint dev_run (st : DevState) (acts : list DevAction) : option (DevState * list SaveTask) :=
  match acts with
  | [] => Some (st, [])
  | a :: rest =>
      match dev_step st a with
      | Some (st1, save) =>
          match dev_run st1 rest with
          | Some (st', saves) =>
              Some (st', (match save with Some t => [t] | None => [] end ++ saves)%list)
          | None => None
          end
      | None => None
      end
  end.

(* ------------------------------------------------------------------ *)
(** ** [IdeaForm] ([src/components/idea_form.rs]) *)

(** The form's signals. *)
Record FormState := mkFormState {
  f_title : string;
  f_description : string;
  f_tags_input : string;
  f_is_submitting : bool;
  f_success_message : string
}.

(** The [onsubmit] handler, with the server call run to completion.
    [k] is the key the store picks, [display] is [ServerFnError]'s
    [Display]. Returns the new signals, the store and whether
    [on_submit_success] was called. *)
Definition form_onsubmit (display : ServerFnError -> string) (k : string)
  (st : FormState) (db : Db) : FormState * Db * bool :=
  let tags := parse_tags (f_tags_input st) in
  match submit_idea_server k (f_title st) (f_description st) tags db with
  | (Ok _, db') =>
      (mkFormState "" "" "" false "idea submitted successfully", db', true)
  | (Err e, db') =>
      (mkFormState (f_title st) (f_description st) (f_tags_input st) false
         ("error: " ++ display e), db', false)
  end.

(* ------------------------------------------------------------------ *)
(** ** [IdeaList] delete button ([src/components/idea_list.rs]) *)

(** The delete button's task: [delete_idea_server] is called only when
    the user confirmed; [on_delete_success] only on [Ok]. Returns the
    store and whether [on_delete_success] was called. *)
Definition list_delete_click (confirmed : bool) (id : string) (db : Db) : Db * bool :=
  if confirmed then
    match delete_idea_server id db with
    | (Ok _, db') => (db', true)
    | (Err _, db') => (db', false)
    end
  else (db, false).

(* ------------------------------------------------------------------ *)
(** ** Store well-formedness *)

(** Every stored document carries the id of the key it is stored at. *)
Definition db_wf (db : Db) : Prop :=
  forall t k r, db_docs db !! (t, k) = Some r -> IdeaRecord.id r = Some (mkThing t k).

(** Leading and trailing whitespace of a string. *)
Definition starts_ws (s : string) : bool :=
  match ws_front s with Some _ => true | None => false end.

Definition ends_ws (s : string) : bool :=
  match ws_front_rev (string_rev s) with Some _ => true | None => false end.

(* ------------------------------------------------------------------ *)
(** ** Facts about [split_on] *)

Fixpoint count_char (c : ascii) (s : string) : nat :=
  match s with
  | EmptyString => 0
  | String x rest => (if Ascii.eqb x c then 1 else 0) + count_char c rest
  end.

(** Joining the parts back with the separator. *)
Fixpoint join_on (c : ascii) (l : list string) : string :=
  match l with
  | [] => ""
  | [x] => x
  | x :: rest => x ++ String c (join_on c rest)
  end.

Lemma split_on_nonempty c s : split_on c s <> [].
Proof.
  destruct s as [|x rest]; simpl; [discriminate|].
  destruct (Ascii.eqb x c); [discriminate|].
  destruct (split_on c rest); discriminate.
Qed.

Lemma split_on_length c s : length (split_on c s) = S (count_char c s).
Proof.
  induction s as [|x rest IH]; simpl; [reflexivity|].
  destruct (Ascii.eqb x c); simpl.
  - now rewrite IH.
  - destruct (split_on c rest) eqn:E; simpl in *; [discriminate|]. exact IH.
Qed.

Lemma split_on_no_sep c s : count_char c s = 0 -> split_on c s = [s].
Proof.
  induction s as [|x rest IH]; simpl; [reflexivity|].
  destruct (Ascii.eqb x c); simpl; [discriminate|].
  intros H. now rewrite IH.
Qed.

Lemma join_on_cons_string c x h tl :
  join_on c (String x h :: tl) = String x (join_on c (h :: tl)).
Proof. destruct tl; reflexivity. Qed.

Lemma join_split_on c s : join_on c (split_on c s) = s.
Proof.
  induction s as [|x rest IH]; simpl; [reflexivity|].
  destruct (Ascii.eqb x c) eqn:E.
  - apply Ascii.eqb_eq in E. subst x.
    pose proof (split_on_nonempty c rest) as Hne.
    destruct (split_on c rest) as [|h tl]; [congruence|].
    transitivity ("" ++ String c (join_on c (h :: tl))); [reflexivity|].
    now rewrite IH.
  - pose proof (split_on_nonempty c rest) as Hne.
    destruct (split_on c rest) as [|h tl]; [congruence|].
    rewrite join_on_cons_string. now rewrite IH.
Qed.

Lemma split_on_two c s a b : split_on c s = [a; b] -> s = a ++ String c b.
Proof.
  intros H. rewrite <- (join_split_on c s), H. reflexivity.
Qed.

(** An id that splits into two parts renders back from its parts. *)
Lemma split_id_render id table record_id :
  split_on ":" id = [table; record_id] ->
  thing_to_string (mkThing table record_id) = id.
Proof. intros H. symmetry. exact (split_on_two _ _ _ _ H). Qed.

Lemma string_app_nil_l (s : string) : "" ++ s = s.
Proof. reflexivity. Qed.

Lemma string_app_cons (x : ascii) (s1 s2 : string) : String x s1 ++ s2 = String x (s1 ++ s2).
Proof. reflexivity. Qed.

(** A rendered id with colon-free parts parses back into them. *)
Lemma split_render (table record_id : string) :
  count_char ":" table = 0 -> count_char ":" record_id = 0 ->
  split_on ":" (table ++ ":" ++ record_id) = [table; record_id].
Proof.
  intros Ht Hk. induction table as [|x rest IH].
  - rewrite string_app_nil_l, string_app_cons, string_app_nil_l. simpl.
    rewrite (split_on_no_sep _ _ Hk). reflexivity.
  - rewrite string_app_cons. simpl in Ht |- *.
    destruct (Ascii.eqb x ":"); [discriminate|]. simpl in Ht.
    rewrite (IH Ht). reflexivity.
Qed.

Lemma filter_fst_NoDup {B} (P : (string * string) * B -> Prop)
  `{forall x, Decision (P x)} (l : list ((string * string) * B)) :
  NoDup (map fst l) -> NoDup (map fst (filter P l)).
Proof.
  induction l as [|kv l IH]; simpl; intros Hnd; [constructor|].
  inversion Hnd as [|? ? Hnin Hnd']; subst.
  rewrite filter_cons. destruct (decide (P kv)); simpl; [|auto].
  constructor; [|auto].
  intros Hin. apply Hnin.
  apply list_elem_of_In, in_map_iff in Hin as [kv' [Heq Hin]].
  apply list_elem_of_In, in_map_iff. exists kv'. split; [exact Heq|].
  apply list_elem_of_In, list_elem_of_filter in Hin as [_ Hin].
  now apply list_elem_of_In.
Qed.

Ltac unfold_store :=
  unfold db_select, db_update, db_delete, db_create, db_select_all, with_docs in *.

(* ------------------------------------------------------------------ *)
(** ** Id parsing (claim C1) *)

(** A record stored under the empty key of the [ideas] table. *)
Definition db_empty_key : Db :=
  mkDb {[ ("ideas", "") := IdeaRecord.mk (Some (mkThing "ideas" "")) "t" "d" [] [] "" ]} None.

(** A store holding one idea under [ideas:k1]. *)
Definition db_one : Db :=
  mkDb {[ ("ideas", "k1") :=
           IdeaRecord.mk (Some (mkThing "ideas" "k1")) "Test Idea" "d" ["a"; "b"] [] "" ]} None.

(** C1 (counterexample): ["ideas:"] and [":key"] split into two parts,
    one of them empty; GetById, Update and Delete do not reject them with a
    format error but query the store with the empty part. *)
Lemma C1_empty_part_reaches_store :
  fst (get_idea_by_id_server "ideas:" db_empty_key)
    = Ok (Idea.mk (Some "ideas:") "t" "d" [] [] "") /\
  fst (get_idea_by_id_server ":key" empty_db) = Err (IdeaNotFound ":key") /\
  fst (update_idea_server "ideas:" "t2" "d2" [] [] "" db_empty_key)
    = Ok (Idea.mk (Some "ideas:") "t2" "d2" [] [] "") /\
  delete_idea_server "ideas:" db_empty_key = (Ok tt, empty_db).
Proof. vm_compute. repeat split; reflexivity. Qed.

(** C1 (amended): an id that does not split on [':'] into exactly two
    parts (that is, does not hold exactly one colon) makes GetById, Update
    and Delete return the format error without touching the store; an id
    that splits into exactly two parts, empty or not, never yields a
    format error. *)
Theorem C1_id_format (id : string) (db : Db) (title description : string)
  (tags what_must_be_true : list string) (development_notes : string) :
  (length (split_on ":" id) = S (count_char ":" id)) /\
  (length (split_on ":" id) <> 2 ->
     get_idea_by_id_server id db = (Err (InvalidIdFormat id), db) /\
     update_idea_server id title description tags what_must_be_true development_notes db
       = (Err (InvalidIdFormat id), db) /\
     delete_idea_server id db = (Err (InvalidIdFormat id), db)) /\
  (length (split_on ":" id) = 2 ->
     (forall e, fst (get_idea_by_id_server id db) = Err e -> is_format_error e = false) /\
     (forall e, fst (update_idea_server id title description tags what_must_be_true
                       development_notes db) = Err e -> is_format_error e = false) /\
     (forall e, fst (delete_idea_server id db) = Err e -> is_format_error e = false)).
Proof.
  split; [apply split_on_length|].
  unfold get_idea_by_id_server, update_idea_server, delete_idea_server.
  destruct (split_on ":" id) as [|a [|b [|c rest]]]; simpl.
  - split; [auto|]. discriminate.
  - split; [auto|]. discriminate.
  - split; [intros H; exfalso; apply H; reflexivity|].
    intros _. unfold_store.
    destruct (db_fault db); simpl; [repeat split; intros e He; inversion He; reflexivity|].
    destruct (db_docs db !! (a, b)); simpl;
      repeat split; intros e He; inversion He; reflexivity.
  - split; [auto|]. discriminate.
Qed.

Lemma C1_id_format_witness :
  length (split_on ":" "a:b:c") <> 2 /\
  get_idea_by_id_server "a:b:c" empty_db = (Err (InvalidIdFormat "a:b:c"), empty_db).
Proof.
  split; [vm_compute; discriminate|].
  apply (proj1 (proj1 (proj2 (C1_id_format "a:b:c" empty_db "" "" [] [] "")) ltac:(vm_compute; discriminate))).
Defined.

(* ------------------------------------------------------------------ *)
(** ** Empty list elements (claim C2) *)

(** C2 (counterexample): starting from an empty store, Submit then
    Update through the public endpoints persists an empty-string element
    both in [tags] and in [what_must_be_true]: neither endpoint validates
    the list elements. *)
Lemma C2_empty_element_stored :
  let db1 := snd (submit_idea_server "k1" "t" "d" [""] empty_db) in
  let db2 := snd (update_idea_server "ideas:k1" "t" "d" [""] [""] "" db1) in
  exists r, db_docs db2 !! ("ideas", "k1") = Some r /\
    In "" (IdeaRecord.tags r) /\ In "" (IdeaRecord.what_must_be_true r).
Proof. vm_compute. eexists. split; [reflexivity|]. simpl. auto. Qed.

Lemma parse_tags_nonempty (tags_input : string) :
  Forall (fun s => s <> "") (parse_tags tags_input).
Proof.
  unfold parse_tags. apply Forall_forall. intros x Hx.
  apply list_elem_of_In, filter_In in Hx as [_ Hx].
  apply negb_true_iff, String.eqb_neq in Hx. exact Hx.
Qed.

(** C2 (amended): the form's tag parsing yields no empty element, and
    the Development view's add action never appends an empty statement
    (it keeps a checklist free of empty elements so). The endpoints do not
    validate list elements: Submit stores the tags it receives, and Update
    the tags, checklist and notes it receives, exactly as they are. *)
Theorem C2_lists_normalized_client_side :
  (forall tags_input, Forall (fun s => s <> "") (parse_tags tags_input)) /\
  (forall what_must_be_true new_statement,
     Forall (fun s => s <> "") what_must_be_true ->
     Forall (fun s => s <> "") (fst (fst (add_statement what_must_be_true new_statement)))) /\
  (forall k title description tags db,
     db_fault db = None -> db_docs db !! ("ideas", k) = None ->
     db_docs (snd (submit_idea_server k title description tags db)) !! ("ideas", k)
       = Some (IdeaRecord.mk (Some (mkThing "ideas" k)) title description tags [] "")) /\
  (forall id table record_id title description tags what_must_be_true development_notes db,
     split_on ":" id = [table; record_id] -> db_fault db = None ->
     is_Some (db_docs db !! (table, record_id)) ->
     db_docs (snd (update_idea_server id title description tags what_must_be_true
                     development_notes db)) !! (table, record_id)
       = Some (IdeaRecord.mk (Some (mkThing table record_id)) title description tags
                 what_must_be_true development_notes)).
Proof.
  split; [exact parse_tags_nonempty|]. split; [|split].
  - intros l n Hl. unfold add_statement.
    destruct (String.eqb n "") eqn:E; simpl; [exact Hl|].
    apply Forall_app. split; [exact Hl|].
    constructor; [|constructor]. apply String.eqb_neq. exact E.
  - intros k title description tags db Hf Hfresh.
    unfold submit_idea_server. unfold_store. rewrite Hf, Hfresh. simpl.
    apply lookup_insert_eq.
  - intros id table record_id title description tags wmbt notes db Hs Hf [r Hr].
    unfold update_idea_server. rewrite Hs. unfold_store. rewrite Hf, Hr. simpl.
    apply lookup_insert_eq.
Qed.

Lemma C2_lists_normalized_client_side_witness :
  Forall (fun s => s <> "") ["a"] /\
  Forall (fun s => s <> "") (fst (fst (add_statement ["a"] ""))) /\
  db_docs (snd (submit_idea_server "k1" "t" "d" [""] empty_db)) !! ("ideas", "k1")
    = Some (IdeaRecord.mk (Some (mkThing "ideas" "k1")) "t" "d" [""] [] "") /\
  db_docs (snd (update_idea_server "ideas:k1" "t" "d" [""] [""] "" db_one)) !! ("ideas", "k1")
    = Some (IdeaRecord.mk (Some (mkThing "ideas" "k1")) "t" "d" [""] [""] "").
Proof.
  assert (H : Forall (fun s => s <> "") ["a"]) by (constructor; [discriminate|constructor]).
  split; [exact H|]. split.
  - exact (proj1 (proj2 C2_lists_normalized_client_side) ["a"] "" H).
  - split.
    + apply (proj1 (proj2 (proj2 C2_lists_normalized_client_side)) "k1" "t" "d" [""] empty_db);
        reflexivity.
    + apply (proj2 (proj2 (proj2 C2_lists_normalized_client_side))
               "ideas:k1" "ideas" "k1" "t" "d" [""] [""] "" db_one);
        [reflexivity|reflexivity|eexists; reflexivity].
Defined.

(* ------------------------------------------------------------------ *)
(** ** Submit then GetById (claim C3) *)

(** C3: Submit stores a record with an empty checklist and empty notes;
    with the store's key [k] fresh and free of colons (so that the
    returned id parses back), GetById on the returned id yields the
    submitted fields with those defaults. *)
Theorem C3_submit_get (k title description : string) (tags : list string) (db : Db) :
  db_fault db = None ->
  db_docs db !! ("ideas", k) = None ->
  count_char ":" k = 0 ->
  let '(res, db1) := submit_idea_server k title description tags db in
  res = Ok (Idea.mk (Some ("ideas:" ++ k)) title description tags [] "") /\
  db_docs db1 !! ("ideas", k)
    = Some (IdeaRecord.mk (Some (mkThing "ideas" k)) title description tags [] "") /\
  fst (get_idea_by_id_server ("ideas:" ++ k) db1) = res.
Proof.
  intros Hf Hfresh Hk.
  unfold submit_idea_server. unfold_store. rewrite Hf, Hfresh. simpl.
  split; [reflexivity|]. split.
  - apply lookup_insert_eq.
  - unfold get_idea_by_id_server.
    change ("ideas:" ++ k) with ("ideas" ++ ":" ++ k).
    rewrite (split_render "ideas" k eq_refl Hk). unfold_store. simpl.
    rewrite lookup_insert_eq. reflexivity.
Qed.

Lemma C3_submit_get_witness :
  db_fault empty_db = None /\ db_docs empty_db !! ("ideas", "k1") = None /\
  count_char ":" "k1" = 0 /\
  let '(res, db1) := submit_idea_server "k1" "Test Idea" "d" ["a"; "b"] empty_db in
  res = Ok (Idea.mk (Some ("ideas:" ++ "k1")) "Test Idea" "d" ["a"; "b"] [] "") /\
  db_docs db1 !! ("ideas", "k1")
    = Some (IdeaRecord.mk (Some (mkThing "ideas" "k1")) "Test Idea" "d" ["a"; "b"] [] "") /\
  fst (get_idea_by_id_server ("ideas:" ++ "k1") db1) = res.
Proof.
  split; [reflexivity|]. split; [reflexivity|]. split; [reflexivity|].
  apply (C3_submit_get "k1" "Test Idea" "d" ["a"; "b"] empty_db); reflexivity.
Defined.

(* ------------------------------------------------------------------ *)
(** ** Update then GetById (claim C4) *)

(** C4: for an id that splits into [table:record_id] where a record is
    stored, Update replaces the whole document at that key with the new
    fields and the path id (the content is built with [id: None]), returns
    them, and GetById on the same id returns exactly the new values, empty
    checklist and empty notes included. *)
Theorem C4_update_get (id table record_id title description : string)
  (tags what_must_be_true : list string) (development_notes : string)
  (db : Db) (old : IdeaRecord.t) :
  split_on ":" id = [table; record_id] ->
  db_fault db = None ->
  db_docs db !! (table, record_id) = Some old ->
  let '(res, db1) :=
    update_idea_server id title description tags what_must_be_true development_notes db in
  res = Ok (Idea.mk (Some id) title description tags what_must_be_true development_notes) /\
  db_docs db1 = <[(table, record_id) :=
                   IdeaRecord.mk (Some (mkThing table record_id)) title description tags
                     what_must_be_true development_notes]> (db_docs db) /\
  fst (get_idea_by_id_server id db1) = res.
Proof.
  intros Hs Hf Hold.
  unfold update_idea_server, get_idea_by_id_server. rewrite Hs. unfold_store.
  rewrite Hf, Hold. simpl. rewrite lookup_insert_eq. simpl.
  unfold idea_of_record. simpl. rewrite (split_id_render _ _ _ Hs).
  repeat split; reflexivity.
Qed.

Lemma C4_update_get_witness :
  split_on ":" "ideas:k1" = ["ideas"; "k1"] /\ db_fault db_one = None /\
  db_docs db_one !! ("ideas", "k1")
    = Some (IdeaRecord.mk (Some (mkThing "ideas" "k1")) "Test Idea" "d" ["a"; "b"] [] "") /\
  let '(res, db1) :=
    update_idea_server "ideas:k1" "Test Idea" "d" ["a"; "b"] [] "" db_one in
  res = Ok (Idea.mk (Some "ideas:k1") "Test Idea" "d" ["a"; "b"] [] "") /\
  db_docs db1 = <[("ideas", "k1") :=
                   IdeaRecord.mk (Some (mkThing "ideas" "k1")) "Test Idea" "d" ["a"; "b"]
                     [] ""]> (db_docs db_one) /\
  fst (get_idea_by_id_server "ideas:k1" db1) = res.
Proof.
  split; [reflexivity|]. split; [reflexivity|]. split; [reflexivity|].
  apply (C4_update_get "ideas:k1" "ideas" "k1" "Test Idea" "d" ["a"; "b"] [] "" db_one
           (IdeaRecord.mk (Some (mkThing "ideas" "k1")) "Test Idea" "d" ["a"; "b"] [] ""));
    reflexivity.
Defined.

(* ------------------------------------------------------------------ *)
(** ** Delete then GetById (claim C5) *)

(** C5: for a well-formed id, on a working store, Delete succeeds and a
    following GetById on the same id fails with not-found (whether or not
    a record was stored there). *)
Theorem C5_delete_get (id table record_id : string) (db : Db) :
  split_on ":" id = [table; record_id] ->
  db_fault db = None ->
  let '(r1, db1) := delete_idea_server id db in
  r1 = Ok tt /\ get_idea_by_id_server id db1 = (Err (IdeaNotFound id), db1).
Proof.
  intros Hs Hf.
  unfold delete_idea_server, get_idea_by_id_server. rewrite Hs. unfold_store.
  rewrite Hf. simpl. rewrite lookup_delete_eq. split; reflexivity.
Qed.

Lemma C5_delete_get_witness :
  split_on ":" "ideas:k1" = ["ideas"; "k1"] /\ db_fault db_one = None /\
  let '(r1, db1) := delete_idea_server "ideas:k1" db_one in
  r1 = Ok tt /\ get_idea_by_id_server "ideas:k1" db1 = (Err (IdeaNotFound "ideas:k1"), db1).
Proof.
  split; [reflexivity|]. split; [reflexivity|].
  apply (C5_delete_get "ideas:k1" "ideas" "k1" db_one); reflexivity.
Defined.

(* ------------------------------------------------------------------ *)
(** ** Ids naming no record (claim C6) *)

(** C6: an id with exactly one colon that names no stored record makes
    GetById fail with not-found, and Update fail with not-found leaving
    the store as it was. *)
Theorem C6_missing_record (id : string) (db : Db) (title description : string)
  (tags what_must_be_true : list string) (development_notes : string) :
  count_char ":" id = 1 ->
  db_fault db = None ->
  (forall table record_id, split_on ":" id = [table; record_id] ->
     db_docs db !! (table, record_id) = None) ->
  get_idea_by_id_server id db = (Err (IdeaNotFound id), db) /\
  update_idea_server id title description tags what_must_be_true development_notes db
    = (Err (IdeaNotFound id), db).
Proof.
  intros Hc Hf Hnone.
  pose proof (split_on_length ":" id) as Hlen. rewrite Hc in Hlen.
  destruct (split_on ":" id) as [|table [|record_id [|x rest]]] eqn:Hs;
    simpl in Hlen; try discriminate.
  specialize (Hnone table record_id eq_refl).
  unfold update_idea_server, get_idea_by_id_server. rewrite Hs. unfold_store.
  rewrite Hf, Hnone. split; reflexivity.
Qed.

Lemma C6_missing_record_witness :
  count_char ":" "ideas:nope" = 1 /\ db_fault db_one = None /\
  get_idea_by_id_server "ideas:nope" db_one = (Err (IdeaNotFound "ideas:nope"), db_one) /\
  update_idea_server "ideas:nope" "t" "d" [] [] "" db_one = (Err (IdeaNotFound "ideas:nope"), db_one).
Proof.
  split; [reflexivity|]. split; [reflexivity|].
  apply (C6_missing_record "ideas:nope" db_one "t" "d" [] [] ""); [reflexivity|reflexivity|].
  intros table record_id Hs. vm_compute in Hs. injection Hs as <- <-. reflexivity.
Defined.

(* ------------------------------------------------------------------ *)
(** ** Serialization round trip (claim C7) *)

Lemma de_strings_map_JStr (l : list string) : de_strings (map JStr l) = Some l.
Proof. induction l as [|s l IH]; simpl; [reflexivity|]. now rewrite IH. Qed.

Lemma put_field_ok {A} (f : string) (slot v : option A) (k : A -> Partial) (p' : Partial) :
  put_field f slot v k = Ok p' -> exists a, p' = k a.
Proof.
  unfold put_field. destruct slot; [discriminate|].
  destruct v as [a|]; [|discriminate]. intros H. injection H as <-. eauto.
Qed.

(** A map entry under another key leaves the two defaulted fields as
    they were. *)
Lemma visit_entry_frame (p p' : Partial) (f : string) (j : json) :
  visit_entry p (f, j) = Ok p' ->
  (f <> "what_must_be_true" -> p_what_must_be_true p' = p_what_must_be_true p) /\
  (f <> "development_notes" -> p_development_notes p' = p_development_notes p).
Proof.
  destruct p as [i t d g w n]. unfold visit_entry.
  destruct (String.eqb f "id") eqn:E1;
    [intros H; apply put_field_ok in H as [a ->]; split; reflexivity|].
  destruct (String.eqb f "title") eqn:E2;
    [intros H; apply put_field_ok in H as [a ->]; split; reflexivity|].
  destruct (String.eqb f "description") eqn:E3;
    [intros H; apply put_field_ok in H as [a ->]; split; reflexivity|].
  destruct (String.eqb f "tags") eqn:E4;
    [intros H; apply put_field_ok in H as [a ->]; split; reflexivity|].
  destruct (String.eqb f "what_must_be_true") eqn:E5.
  { intros H; apply put_field_ok in H as [a ->]. apply String.eqb_eq in E5.
    split; [intros C; congruence | reflexivity]. }
  destruct (String.eqb f "development_notes") eqn:E6.
  { intros H; apply put_field_ok in H as [a ->]. apply String.eqb_eq in E6.
    split; [reflexivity | intros C; congruence]. }
  intros H. injection H as <-. split; reflexivity.
Qed.

Lemma visit_map_frame (m : list (string * json)) (p p' : Partial) :
  visit_map p m = Ok p' ->
  (~ In "what_must_be_true" (map fst m) -> p_what_must_be_true p' = p_what_must_be_true p) /\
  (~ In "development_notes" (map fst m) -> p_development_notes p' = p_development_notes p).
Proof.
  revert p. induction m as [|[f j] m IH]; cbn [visit_map map fst]; intros p H.
  - injection H as <-. split; reflexivity.
  - destruct (visit_entry p (f, j)) as [p1|e] eqn:E; [|discriminate].
    apply visit_entry_frame in E as [Ew En].
    apply IH in H as [Hw Hn]. split; intros Hnin.
    + rewrite Hw by (intros Hi; apply Hnin; right; exact Hi).
      apply Ew. intros ->. apply Hnin. left. reflexivity.
    + rewrite Hn by (intros Hi; apply Hnin; right; exact Hi).
      apply En. intros ->. apply Hnin. left. reflexivity.
Qed.

(** C7: deserializing a serialized [Idea] gives it back; the legacy
    document of [test_idea_default_fields] deserializes with an empty
    checklist and empty notes; and so does any document without the
    [what_must_be_true] and [development_notes] keys that deserializes. *)
Theorem C7_serde_roundtrip :
  (forall i : Idea.t, deserialize_idea (serialize_idea i) = Ok i) /\
  deserialize_idea legacy_doc
    = Ok (Idea.mk (Some "ideas:test") "Old Idea" "From before development fields existed"
            ["old"] [] "") /\
  (forall (m : list (string * json)) (i : Idea.t),
     ~ In "what_must_be_true" (map fst m) -> ~ In "development_notes" (map fst m) ->
     deserialize_idea m = Ok i ->
     Idea.what_must_be_true i = [] /\ Idea.development_notes i = "").
Proof.
  split; [|split].
  - intros [[s|] t d g w n]; unfold deserialize_idea, serialize_idea; simpl;
      rewrite !de_strings_map_JStr; reflexivity.
  - reflexivity.
  - intros m i Hw Hn H. unfold deserialize_idea in H.
    destruct (visit_map partial_empty m) as [p|e] eqn:E; [|discriminate].
    apply visit_map_frame in E as [Ew En].
    specialize (Ew Hw). specialize (En Hn). simpl in Ew, En.
    unfold finish in H. rewrite Ew, En in H.
    destruct (p_title p), (p_description p), (p_tags p); try discriminate.
    injection H as <-. split; reflexivity.
Qed.

Lemma C7_serde_roundtrip_witness :
  ~ In "what_must_be_true" (map fst legacy_doc) /\
  ~ In "development_notes" (map fst legacy_doc) /\
  Idea.what_must_be_true
    (Idea.mk (Some "ideas:test") "Old Idea" "From before development fields existed" ["old"] [] "")
    = [] /\
  Idea.development_notes
    (Idea.mk (Some "ideas:test") "Old Idea" "From before development fields existed" ["old"] [] "")
    = "".
Proof.
  assert (Hw : ~ In "what_must_be_true" (map fst legacy_doc))
    by (simpl; intuition discriminate).
  assert (Hn : ~ In "development_notes" (map fst legacy_doc))
    by (simpl; intuition discriminate).
  split; [exact Hw|]. split; [exact Hn|].
  exact (proj2 (proj2 C7_serde_roundtrip) legacy_doc _ Hw Hn (proj1 (proj2 C7_serde_roundtrip))).
Defined.

(* ------------------------------------------------------------------ *)
(** ** Listing (claim C8) *)

Lemma list_fmap_is_map {A B} (f : A -> B) (l : list A) : f <$> l = map f l.
Proof. induction l as [|x l IH]; [reflexivity|]. cbn. now f_equal. Qed.

(** C8: on a working store, ListAll never fails: it returns one
    converted [Idea] per document stored under the [ideas] table (each
    key once), and the empty sequence when that table holds nothing. *)
Theorem C8_list_all (db : Db) :
  db_fault db = None ->
  exists entries : list ((string * string) * IdeaRecord.t),
    get_all_ideas_server db = (Ok (map (fun kv => idea_of_record kv.2) entries), db) /\
    NoDup (map fst entries) /\
    (forall tk r, In (tk, r) entries <-> tk.1 = "ideas" /\ db_docs db !! tk = Some r) /\
    ((forall k, db_docs db !! ("ideas", k) = None) -> entries = []).
Proof.
  intros Hf.
  set (entries := filter (fun kv : (string * string) * IdeaRecord.t => kv.1.1 = "ideas")
                    (map_to_list (db_docs db))).
  assert (Hin : forall tk r, In (tk, r) entries <-> tk.1 = "ideas" /\ db_docs db !! tk = Some r).
  { intros tk r. unfold entries.
    rewrite <- list_elem_of_In, list_elem_of_filter, elem_of_map_to_list. reflexivity. }
  exists entries. split; [|split; [|split]].
  - unfold get_all_ideas_server, db_select_all. rewrite Hf. simpl.
    rewrite map_map. reflexivity.
  - apply filter_fst_NoDup. pose proof (NoDup_fst_map_to_list (db_docs db)) as Hnd.
    rewrite list_fmap_is_map in Hnd. exact Hnd.
  - exact Hin.
  - intros Hnone. destruct entries as [|[[t k] r] rest] eqn:E; [reflexivity|].
    exfalso. destruct (proj1 (Hin (t, k) r) (or_introl eq_refl)) as [Ht Hl].
    simpl in Ht. subst t. rewrite Hnone in Hl. discriminate.
Qed.

Lemma C8_list_all_witness :
  db_fault empty_db = None /\ get_all_ideas_server empty_db = (Ok [], empty_db).
Proof.
  split; [reflexivity|].
  destruct (C8_list_all empty_db eq_refl) as (entries & Hget & _ & _ & Hempty).
  rewrite Hget, (Hempty (fun k => eq_refl)). reflexivity.
Defined.

(* ------------------------------------------------------------------ *)
(** ** Record to [Idea] conversion (claim C9) *)

(** C9: the conversion is defined on every record; it renders the record
    id, when present, as ["table:key"] and copies the other five fields
    as they are. *)
Theorem C9_idea_of_record (record : IdeaRecord.t) :
  Idea.id (idea_of_record record)
    = match IdeaRecord.id record with
      | Some t => Some (tb t ++ ":" ++ key t)
      | None => None
      end /\
  Idea.title (idea_of_record record) = IdeaRecord.title record /\
  Idea.description (idea_of_record record) = IdeaRecord.description record /\
  Idea.tags (idea_of_record record) = IdeaRecord.tags record /\
  Idea.what_must_be_true (idea_of_record record) = IdeaRecord.what_must_be_true record /\
  Idea.development_notes (idea_of_record record) = IdeaRecord.development_notes record.
Proof.
  destruct record as [[t|] ti de ta w n]; repeat split; reflexivity.
Qed.

(* ------------------------------------------------------------------ *)
(** ** Delete of a missing record (claim C10) *)

(** C10: for a well-formed id, when the store call succeeds, Delete
    returns [Ok ()] whatever the store returned; when no record was there
    the store is left as it was. *)
Theorem C10_delete_missing_ok (id table record_id : string) (db : Db) :
  split_on ":" id = [table; record_id] ->
  db_fault db = None ->
  fst (delete_idea_server id db) = Ok tt /\
  (db_docs db !! (table, record_id) = None -> delete_idea_server id db = (Ok tt, db)).
Proof.
  intros Hs Hf. unfold delete_idea_server. rewrite Hs. unfold_store. rewrite Hf.
  split; [reflexivity|]. intros Hnone. rewrite delete_id by exact Hnone.
  destruct db as [docs fault]. simpl in *. subst fault. reflexivity.
Qed.

Lemma C10_delete_missing_ok_witness :
  split_on ":" "ideas:nope" = ["ideas"; "nope"] /\ db_fault db_one = None /\
  db_docs db_one !! ("ideas", "nope") = None /\
  delete_idea_server "ideas:nope" db_one = (Ok tt, db_one).
Proof.
  split; [reflexivity|]. split; [reflexivity|].
  assert (Hnone : db_docs db_one !! ("ideas", "nope") = None) by reflexivity.
  split; [exact Hnone|].
  exact (proj2 (C10_delete_missing_ok "ideas:nope" "ideas" "nope" db_one eq_refl eq_refl) Hnone).
Defined.

(* ================================================================== *)
(** * Further properties of the code *)

(* ------------------------------------------------------------------ *)
(** ** Strings: append, reverse, trim *)

Lemma string_app_nil_r (s : string) : s ++ "" = s.
Proof.
  induction s as [|x s IH]; [reflexivity|]. rewrite string_app_cons. now rewrite IH.
Qed.

Lemma string_app_assoc (a b c : string) : (a ++ b) ++ c = a ++ (b ++ c).
Proof.
  induction a as [|x a IH]; [reflexivity|]. rewrite !string_app_cons. now rewrite IH.
Qed.

Lemma string_rev_app (a b : string) : string_rev (a ++ b) = string_rev b ++ string_rev a.
Proof.
  induction a as [|x a IH].
  - rewrite string_app_nil_l. simpl. now rewrite string_app_nil_r.
  - rewrite string_app_cons. simpl. rewrite IH. apply string_app_assoc.
Qed.

Lemma string_rev_involutive (s : string) : string_rev (string_rev s) = s.
Proof.
  induction s as [|x s IH]; [reflexivity|]. simpl.
  rewrite string_rev_app, IH. reflexivity.
Qed.

Lemma string_length_app (a b : string) :
  String.length (a ++ b) = String.length a + String.length b.
Proof.
  induction a as [|x a IH]; [reflexivity|]. rewrite string_app_cons. simpl. now rewrite IH.
Qed.

Lemma string_rev_length (s : string) : String.length (string_rev s) = String.length s.
Proof.
  induction s as [|x s IH]; [reflexivity|]. simpl.
  rewrite string_length_app, IH. simpl. lia.
Qed.

Lemma string_nonempty_length (p r : string) : p <> "" -> String.length r < String.length (p ++ r).
Proof.
  destruct p as [|x p]; [congruence|]. intros _.
  rewrite string_app_cons. simpl. rewrite string_length_app. lia.
Qed.

Lemma strip_char_suffix w1 w2 w3 (s r : string) :
  strip_char w1 w2 w3 s = Some r -> exists p, p <> "" /\ s = p ++ r.
Proof.
  intros H. destruct s as [|a [|b [|c s']]]; simpl in H; try discriminate;
    repeat match type of H with context [if ?x then _ else _] => destruct x end;
    try discriminate; injection H as <-.
  - exists (String a ""). split; [discriminate|reflexivity].
  - exists (String a ""). split; [discriminate|reflexivity].
  - exists (String a (String b "")). split; [discriminate|reflexivity].
  - exists (String a ""). split; [discriminate|reflexivity].
  - exists (String a (String b "")). split; [discriminate|reflexivity].
  - exists (String a (String b (String c ""))). split; [discriminate|reflexivity].
Qed.

(** The match looks only at the first bytes: it survives appending. *)
Lemma strip_char_app w1 w2 w3 (a b r : string) :
  strip_char w1 w2 w3 a = Some r -> strip_char w1 w2 w3 (a ++ b) = Some (r ++ b).
Proof.
  intros H. destruct a as [|x [|y [|z a']]]; simpl in H; try discriminate;
    rewrite ?string_app_cons; simpl;
    repeat match type of H with context [if ?c then _ else _] => destruct c end;
    try discriminate; injection H as <-; reflexivity.
Qed.

Section StripAll.
Variable f : string -> option string.
Hypothesis f_suffix : forall s r, f s = Some r -> exists p, p <> "" /\ s = p ++ r.

Lemma strip_all_suffix (n : nat) (s : string) : exists p, s = p ++ strip_all f n s.
Proof.
  revert s. induction n as [|n IH]; intros s; simpl; [exists ""; reflexivity|].
  destruct (f s) as [r|] eqn:E; [|exists ""; reflexivity].
  destruct (f_suffix _ _ E) as [p [_ Hp]]. destruct (IH r) as [q Hq].
  exists (p ++ q). rewrite string_app_assoc, <- Hq. exact Hp.
Qed.

Lemma strip_all_done (n : nat) (s : string) : String.length s <= n -> f (strip_all f n s) = None.
Proof.
  revert s. induction n as [|n IH]; intros s Hlen; simpl.
  - destruct s; [|simpl in Hlen; lia].
    destruct (f "") as [r|] eqn:E; [|reflexivity].
    destruct (f_suffix _ _ E) as [p [Hp Heq]].
    pose proof (string_nonempty_length p r Hp) as Hl. rewrite <- Heq in Hl. simpl in Hl. lia.
  - destruct (f s) as [r|] eqn:E; [|exact E]. apply IH.
    destruct (f_suffix _ _ E) as [p [Hp Heq]].
    pose proof (string_nonempty_length p r Hp) as Hl. rewrite <- Heq in Hl. lia.
Qed.

Lemma strip_all_id (n : nat) (s : string) : f s = None -> strip_all f n s = s.
Proof. destruct n; simpl; [reflexivity|]. intros ->. reflexivity. Qed.
End StripAll.

Lemma ws_front_suffix (s r : string) : ws_front s = Some r -> exists p, p <> "" /\ s = p ++ r.
Proof. apply strip_char_suffix. Qed.

Lemma ws_front_rev_suffix (s r : string) : ws_front_rev s = Some r -> exists p, p <> "" /\ s = p ++ r.
Proof. apply strip_char_suffix. Qed.

Lemma trim_start_suffix (s : string) : exists p, s = p ++ trim_start s.
Proof. apply strip_all_suffix, ws_front_suffix. Qed.

Lemma trim_start_clean (s : string) : starts_ws (trim_start s) = false.
Proof.
  unfold starts_ws, trim_start. rewrite strip_all_done; [reflexivity|apply ws_front_suffix|lia].
Qed.

Lemma trim_start_id (s : string) : starts_ws s = false -> trim_start s = s.
Proof.
  unfold starts_ws, trim_start. destruct (ws_front s) eqn:E; [discriminate|].
  intros _. apply strip_all_id, E.
Qed.

Lemma trim_end_prefix (s : string) : exists q, s = trim_end s ++ q.
Proof.
  unfold trim_end.
  destruct (strip_all_suffix _ ws_front_rev_suffix (String.length s) (string_rev s)) as [p Hp].
  exists (string_rev p). rewrite <- string_rev_app, <- Hp. symmetry. apply string_rev_involutive.
Qed.

Lemma trim_end_clean (s : string) : ends_ws (trim_end s) = false.
Proof.
  unfold ends_ws, trim_end. rewrite string_rev_involutive.
  rewrite strip_all_done; [reflexivity|apply ws_front_rev_suffix|].
  rewrite string_rev_length. lia.
Qed.

Lemma trim_end_id (s : string) : ends_ws s = false -> trim_end s = s.
Proof.
  unfold ends_ws, trim_end. destruct (ws_front_rev (string_rev s)) eqn:E; [discriminate|].
  intros _. rewrite strip_all_id by exact E. apply string_rev_involutive.
Qed.

(** A string without leading whitespace has none on any prefix. *)
Lemma starts_ws_prefix (a b : string) : starts_ws (a ++ b) = false -> starts_ws a = false.
Proof.
  unfold starts_ws, ws_front. destruct (strip_char _ _ _ a) as [r|] eqn:E; [|reflexivity].
  rewrite (strip_char_app _ _ _ a b r E). discriminate.
Qed.

(** A trimmed string neither starts nor ends with whitespace. *)
Lemma trim_clean (s : string) : starts_ws (trim s) = false /\ ends_ws (trim s) = false.
Proof.
  unfold trim. split; [|apply trim_end_clean].
  destruct (trim_end_prefix (trim_start s)) as [q Hq].
  apply (starts_ws_prefix _ q). rewrite <- Hq. apply trim_start_clean.
Qed.

Lemma trim_id (s : string) : starts_ws s = false -> ends_ws s = false -> trim s = s.
Proof.
  unfold trim. intros Hs He. rewrite (trim_start_id s Hs). apply trim_end_id, He.
Qed.

(* ------------------------------------------------------------------ *)
(** ** Counting separators *)

Lemma count_char_app (c : ascii) (a b : string) :
  count_char c (a ++ b) = count_char c a + count_char c b.
Proof.
  induction a as [|x a IH]; [reflexivity|]. rewrite string_app_cons. simpl. rewrite IH. lia.
Qed.

Lemma count_char_trim (c : ascii) (s : string) : count_char c (trim s) <= count_char c s.
Proof.
  unfold trim. destruct (trim_start_suffix s) as [p Hp].
  destruct (trim_end_prefix (trim_start s)) as [q Hq].
  rewrite Hp at 2. rewrite Hq at 2. rewrite !count_char_app. lia.
Qed.

Lemma split_on_parts_no_sep (c : ascii) (s : string) :
  Forall (fun p => count_char c p = 0) (split_on c s).
Proof.
  induction s as [|x s IH]; simpl; [constructor; [reflexivity|constructor]|].
  destruct (Ascii.eqb x c) eqn:E; [constructor; [reflexivity|exact IH]|].
  destruct (split_on c s) as [|h tl]; [constructor; [simpl; rewrite E; reflexivity|constructor]|].
  inversion IH as [|? ? Hh Htl]; subst. constructor; [simpl; rewrite E; exact Hh|exact Htl].
Qed.

Lemma split_on_app_sep (c : ascii) (a b : string) :
  count_char c a = 0 -> split_on c (a ++ String c b) = a :: split_on c b.
Proof.
  induction a as [|x a IH]; intros H.
  - rewrite string_app_nil_l. simpl. rewrite Ascii.eqb_refl. reflexivity.
  - rewrite string_app_cons. simpl in H |- *.
    destruct (Ascii.eqb x c); [discriminate|]. simpl in H. rewrite (IH H). reflexivity.
Qed.

Lemma split_join_on (c : ascii) (l : list string) :
  l <> [] -> Forall (fun p => count_char c p = 0) l -> split_on c (join_on c l) = l.
Proof.
  induction l as [|x [|y rest] IH]; intros Hne Hl; [congruence| |].
  - inversion Hl; subst. simpl. now apply split_on_no_sep.
  - inversion Hl as [|? ? Hx Hrest]; subst.
    change (join_on c (x :: y :: rest)) with (x ++ String c (join_on c (y :: rest))).
    rewrite split_on_app_sep by exact Hx. rewrite IH; [reflexivity|discriminate|exact Hrest].
Qed.

(* ------------------------------------------------------------------ *)
(** ** Tag parsing of the submission form *)

(** A tag as the form produces it: non-empty, no comma, no whitespace at
    either end. *)
Definition clean_tag (t : string) : Prop :=
  t <> "" /\ count_char "," t = 0 /\ starts_ws t = false /\ ends_ws t = false.

Lemma parse_tags_clean_all (tags_input : string) :
  Forall clean_tag (parse_tags tags_input).
Proof.
  unfold parse_tags. apply Forall_forall. intros t Ht.
  apply list_elem_of_In, filter_In in Ht as [Hin Hne].
  apply negb_true_iff, String.eqb_neq in Hne.
  apply in_map_iff in Hin as [p [<- Hp]].
  pose proof (split_on_parts_no_sep "," tags_input) as Hparts.
  rewrite Forall_forall in Hparts.
  assert (Hc : count_char "," p = 0) by (apply Hparts, list_elem_of_In, Hp).
  destruct (trim_clean p) as [Hs He].
  repeat split; try assumption.
  pose proof (count_char_trim "," p). lia.
Qed.

(** Every tag parsed from the form's input is non-empty, holds no comma
    and has no leading or trailing whitespace. *)
Theorem parse_tags_clean (tags_input : string) :
  Forall clean_tag (parse_tags tags_input).
Proof. apply parse_tags_clean_all. Qed.

Lemma map_id_on {A} (f : A -> A) (P : A -> Prop) (l : list A) :
  Forall P l -> (forall x, P x -> f x = x) -> map f l = l.
Proof.
  induction l as [|x l IH]; intros Hl Hf; simpl; [reflexivity|].
  inversion Hl; subst. rewrite Hf, IH; auto.
Qed.

Lemma parse_tags_join_on (tags : list string) :
  Forall clean_tag tags -> parse_tags (join_on "," tags) = tags.
Proof.
  intros Hclean. destruct tags as [|t rest]; [reflexivity|].
  unfold parse_tags.
  rewrite split_join_on.
  2: discriminate.
  2: { eapply Forall_impl; [exact Hclean|]. intros x Hx. apply Hx. }
  rewrite (map_id_on trim clean_tag) by
    (try exact Hclean; intros x (_ & _ & Hs & He); now apply trim_id).
  induction (t :: rest) as [|x l IH]; [reflexivity|].
  inversion Hclean as [|? ? (Hx & _) Hl]; subst.
  simpl. apply String.eqb_neq in Hx. rewrite Hx. simpl. rewrite IH; auto.
Qed.

(** Typing clean tags joined with commas into the tags input gives back
    exactly those tags, in order. *)
Theorem parse_tags_join (tags : list string) :
  Forall clean_tag tags -> parse_tags (join_on "," tags) = tags.
Proof. apply parse_tags_join_on. Qed.

Lemma parse_tags_join_witness :
  Forall clean_tag ["rust"; "web dev"] /\
  parse_tags (join_on "," ["rust"; "web dev"]) = ["rust"; "web dev"].
Proof.
  assert (H : Forall clean_tag ["rust"; "web dev"]).
  { repeat constructor; unfold clean_tag; repeat split; try reflexivity; discriminate. }
  split; [exact H|]. exact (parse_tags_join _ H).
Defined.

(** Parsing is idempotent: re-joining parsed tags with commas and parsing
    again gives the same tags. *)
Theorem parse_tags_idempotent (tags_input : string) :
  parse_tags (join_on "," (parse_tags tags_input)) = parse_tags tags_input.
Proof.
  apply parse_tags_join_on. apply parse_tags_clean_all.
Qed.

(* ------------------------------------------------------------------ *)
(** ** Checklist editing in the Development view *)

(** Removing statement [idx] ([Vec::remove]): in range, exactly that
    statement disappears, the ones before it keep their index and the
    ones after it move down by one; out of range the handler panics. *)
Theorem vec_remove_spec {A} (l : list A) (idx : nat) :
  (idx < length l ->
     exists l', vec_remove l idx = Some l' /\ length l' = length l - 1 /\
       (forall i, i < idx -> l' !! i = l !! i) /\
       (forall i, idx <= i -> l' !! i = l !! S i)) /\
  (length l <= idx -> vec_remove l idx = None).
Proof.
  revert idx. induction l as [|x l IH]; intros idx; simpl.
  - split; [intros H; lia|reflexivity].
  - destruct idx as [|idx].
    + split; [|intros H; lia]. intros _. exists l. split; [reflexivity|].
      split; [lia|]. split; [intros i Hi; lia|]. intros i _. reflexivity.
    + destruct (IH idx) as [Hin Hout]. split.
      * intros Hlt. destruct (Hin ltac:(lia)) as (l' & E & Hlen & Hlo & Hhi).
        rewrite E. exists (x :: l'). split; [reflexivity|]. simpl.
        split; [lia|]. split.
        -- intros [|i] Hi; simpl; [reflexivity|]. apply Hlo. lia.
        -- intros [|i] Hi; simpl; [lia|]. apply Hhi. lia.
      * intros Hge. rewrite Hout by lia. reflexivity.
Qed.

Lemma vec_remove_spec_witness :
  1 < length ["a"; "b"; "c"] /\
  exists l', vec_remove ["a"; "b"; "c"] 1 = Some l' /\ length l' = length ["a"; "b"; "c"] - 1 /\
    (forall i, i < 1 -> l' !! i = ["a"; "b"; "c"] !! i) /\
    (forall i, 1 <= i -> l' !! i = ["a"; "b"; "c"] !! S i).
Proof.
  split; [simpl; lia|]. exact (proj1 (vec_remove_spec ["a"; "b"; "c"] 1) ltac:(simpl; lia)).
Defined.

(** Editing statement [idx] ([list[idx] = value]): in range, that one
    statement becomes [value] and the others and the length are kept; out
    of range the handler panics. *)
Theorem edit_statement_spec (l : list string) (idx : nat) (value : string) :
  (idx < length l ->
     exists l', edit_statement l idx value = Some l' /\ length l' = length l /\
       l' !! idx = Some value /\ (forall i, i <> idx -> l' !! i = l !! i)) /\
  (length l <= idx -> edit_statement l idx value = None).
Proof.
  unfold edit_statement. split.
  - intros Hlt. apply Nat.ltb_lt in Hlt. rewrite Hlt. apply Nat.ltb_lt in Hlt.
    eexists. split; [reflexivity|]. split; [apply length_insert|]. split.
    + apply list_lookup_insert_eq. exact Hlt.
    + intros i Hi. apply list_lookup_insert_ne. congruence.
  - intros Hge. destruct (Nat.ltb idx (length l)) eqn:E; [|reflexivity].
    apply Nat.ltb_lt in E. lia.
Qed.

Lemma edit_statement_spec_witness :
  0 < length ["a"; "b"] /\
  exists l', edit_statement ["a"; "b"] 0 "" = Some l' /\ length l' = length ["a"; "b"] /\
    l' !! 0 = Some "" /\ (forall i, i <> 0 -> l' !! i = ["a"; "b"] !! i).
Proof.
  split; [simpl; lia|]. exact (proj1 (edit_statement_spec ["a"; "b"] 0 "") ltac:(simpl; lia)).
Defined.

(* ------------------------------------------------------------------ *)
(** ** Store well-formedness *)

Lemma db_wf_one : db_wf db_one.
Proof.
  intros t k r H. simpl in H. apply lookup_singleton_Some in H as [Heq <-].
  injection Heq as <- <-. reflexivity.
Qed.

(* ------------------------------------------------------------------ *)
(** ** Auto-saves of the Development view *)

Lemma dev_step_saves (st st1 : DevState) (a : DevAction) (save : option SaveTask) :
  dev_step st a = Some (st1, save) ->
  dv_idea st1 = dv_idea st /\
  match save with
  | Some t => t = auto_save_task st1
  | None => dv_what_must_be_true st1 = dv_what_must_be_true st /\
            dv_development_notes st1 = dv_development_notes st
  end.
Proof.
  intros Hstep. destruct a as [idx v|idx|v| |v]; simpl in Hstep.
  - destruct (edit_statement _ idx v); [|discriminate]. now injection Hstep as <- <-.
  - destruct (vec_remove _ idx); [|discriminate]. now injection Hstep as <- <-.
  - now injection Hstep as <- <-.
  - destruct (add_statement _ _) as [[l input] []]; now injection Hstep as <- <-.
  - now injection Hstep as <- <-.
Qed.

(** Every save of a run is taken from a state showing the same idea; the
    last one spawned carries the final checklist and notes, which are
    the initial ones when none was spawned. *)
Lemma dev_run_saves (acts : list DevAction) :
  forall st st' saves, dev_run st acts = Some (st', saves) ->
  dv_idea st' = dv_idea st /\
  (forall t, In t saves -> exists st1, dv_idea st1 = dv_idea st /\ t = auto_save_task st1) /\
  match last saves with
  | Some t => sv_what_must_be_true t = dv_what_must_be_true st' /\
              sv_development_notes t = dv_development_notes st'
  | None => dv_what_must_be_true st' = dv_what_must_be_true st /\
            dv_development_notes st' = dv_development_notes st
  end.
Proof.
  induction acts as [|a acts IH]; intros st st' saves Hrun; simpl in Hrun.
  - injection Hrun as <- <-. split; [reflexivity|]. split; [intros t []|]. simpl. auto.
  - destruct (dev_step st a) as [[st1 save]|] eqn:Estep; [|discriminate].
    destruct (dev_run st1 acts) as [[st2 saves2]|] eqn:Erun; [|discriminate].
    injection Hrun as <- <-.
    destruct (dev_step_saves _ _ _ _ Estep) as [Hidea1 Hsave].
    destruct (IH _ _ _ Erun) as (Hidea2 & Hin2 & Hlast2).
    split; [congruence|]. split.
    + intros t Ht. apply in_app_or in Ht as [Ht|Ht].
      * destruct save as [t1|]; [|contradiction].
        destruct Ht as [<-|[]]. exists st1. split; [exact Hidea1|exact Hsave].
      * destruct (Hin2 t Ht) as (st3 & H3 & ->). exists st3. split; [congruence|reflexivity].
    + rewrite last_app. destruct (last saves2) as [t|]; [exact Hlast2|].
      destruct Hlast2 as [Hw Hn].
      destruct save as [t1|]; simpl.
      * subst t1. simpl. split; congruence.
      * destruct Hsave as [Hw1 Hn1]. split; congruence.
Qed.

(** Saves aimed at one stored record, handled in any order on a working
    store: the record holds what the save handled last sent. *)
Lemma run_saves_last (id table key : string) (done : list SaveTask) (db : Db) (r : IdeaRecord.t) :
  split_on ":" id = [table; key] -> db_fault db = None ->
  db_docs db !! (table, key) = Some r ->
  (forall t, In t done -> sv_id t = id) ->
  db_fault (run_saves done db) = None /\
  db_docs (run_saves done db) !! (table, key) =
    Some (match last done with
          | Some t => IdeaRecord.mk (Some (mkThing table key)) (sv_title t) (sv_description t)
                        (sv_tags t) (sv_what_must_be_true t) (sv_development_notes t)
          | None => r
          end).
Proof.
  intros Hs Hf Hr. induction done as [|t done IH] using rev_ind; intros Hid.
  - simpl. auto.
  - destruct IH as [Hf' Hr']; [intros t' Ht'; apply Hid, in_or_app; now left|].
    assert (E : run_saves (done ++ [t]) db = run_save t (run_saves done db))
      by (unfold run_saves; rewrite fold_left_app; reflexivity).
    rewrite E, last_snoc. set (db1 := run_saves done db) in *.
    unfold run_save. rewrite (Hid t) by (apply in_or_app; right; now left).
    unfold update_idea_server. rewrite Hs. unfold_store. rewrite Hf', Hr'. simpl.
    split; [reflexivity|]. apply lookup_insert_eq.
Qed.

(** The Development view's auto-save is not ordered. After it loads a
    stored idea and the user performs any sequence of edits that does not
    panic, every save spawned sends the idea's id, title, description and
    tags. Whichever of them the server has handled, in whatever order
    (with no other client writing), the stored idea keeps its title,
    description and tags and holds the checklist and notes of the save
    handled last, or the loaded ones when none was handled. When the
    save handled last is the one spawned last, GetById returns exactly the
    checklist and notes the view shows. *)
Theorem dev_autosave_last_write (id table key : string) (db : Db) (r : IdeaRecord.t)
  (acts : list DevAction) (st0 st' : DevState) (saves done : list SaveTask) :
  split_on ":" id = [table; key] -> db_fault db = None ->
  db_docs db !! (table, key) = Some r -> IdeaRecord.id r = Some (mkThing table key) ->
  dev_load id db = Some st0 -> dev_run st0 acts = Some (st', saves) ->
  (forall t, In t done -> In t saves) ->
  (forall t, In t saves ->
     sv_id t = id /\ sv_title t = IdeaRecord.title r /\
     sv_description t = IdeaRecord.description r /\ sv_tags t = IdeaRecord.tags r) /\
  db_docs (run_saves done db) !! (table, key) =
    Some (match last done with
          | Some t => IdeaRecord.mk (Some (mkThing table key)) (IdeaRecord.title r)
                        (IdeaRecord.description r) (IdeaRecord.tags r)
                        (sv_what_must_be_true t) (sv_development_notes t)
          | None => r
          end) /\
  (last done = last saves ->
   fst (get_idea_by_id_server id (run_saves done db))
     = Ok (Idea.mk (Some id) (IdeaRecord.title r) (IdeaRecord.description r)
             (IdeaRecord.tags r) (dv_what_must_be_true st') (dv_development_notes st'))).
Proof.
  intros Hs Hf Hr Hrid Hload Hrun Hdone.
  unfold dev_load, get_idea_by_id_server in Hload. rewrite Hs in Hload. unfold_store.
  rewrite Hf, Hr in Hload. simpl in Hload. injection Hload as <-.
  destruct (dev_run_saves _ _ _ _ Hrun) as (_ & Hin & Hlast). simpl in Hin, Hlast.
  assert (Hsaves : forall t, In t saves ->
            sv_id t = id /\ sv_title t = IdeaRecord.title r /\
            sv_description t = IdeaRecord.description r /\ sv_tags t = IdeaRecord.tags r).
  { intros t Ht. destruct (Hin t Ht) as (st1 & Hst1 & ->).
    unfold auto_save_task. rewrite Hst1. unfold idea_of_record. simpl.
    rewrite Hrid. simpl. rewrite (split_id_render _ _ _ Hs). auto. }
  destruct (run_saves_last id table key done db r Hs Hf Hr) as [Hf' Hr'];
    [intros t Ht; apply (Hsaves t (Hdone t Ht))|].
  split; [exact Hsaves|]. split.
  - rewrite Hr'. destruct (last done) as [t|] eqn:Et; [|reflexivity].
    apply last_Some_elem_of, list_elem_of_In, Hdone, Hsaves in Et as (_ & -> & -> & ->).
    reflexivity.
  - intros Heq. unfold get_idea_by_id_server. rewrite Hs. unfold_store. rewrite Hf', Hr'. simpl.
    rewrite Heq. destruct (last saves) as [t|] eqn:Et.
    + destruct Hlast as [Hw Hn].
      apply last_Some_elem_of, list_elem_of_In, Hsaves in Et as (_ & Ht & Hd & Hg).
      unfold idea_of_record. simpl. rewrite Ht, Hd, Hg, Hw, Hn, (split_id_render _ _ _ Hs).
      reflexivity.
    + destruct Hlast as [Hw Hn]. rewrite Hw, Hn.
      unfold idea_of_record. simpl. rewrite Hrid. simpl. rewrite (split_id_render _ _ _ Hs).
      reflexivity.
Qed.

(** Two notes edits whose saves the server handles in reverse order. *)
Lemma dev_autosave_last_write_witness :
  match dev_load "ideas:k1" db_one with
  | Some st0 =>
      match dev_run st0 [EditNotes "draft"; EditNotes "final"] with
      | Some (st', saves) =>
          db_docs (run_saves (rev saves) db_one) !! ("ideas", "k1") =
            Some (match last (rev saves) with
                  | Some t => IdeaRecord.mk (Some (mkThing "ideas" "k1")) "Test Idea" "d" ["a"; "b"]
                                (sv_what_must_be_true t) (sv_development_notes t)
                  | None => IdeaRecord.mk (Some (mkThing "ideas" "k1")) "Test Idea" "d" ["a"; "b"] [] ""
                  end)
      | None => False
      end
  | None => False
  end.
Proof.
  destruct (dev_load "ideas:k1" db_one) as [st0|] eqn:Hload; [|vm_compute in Hload; discriminate].
  destruct (dev_run st0 [EditNotes "draft"; EditNotes "final"]) as [[st' saves]|] eqn:Hrun.
  - exact (proj1 (proj2 (dev_autosave_last_write "ideas:k1" "ideas" "k1" db_one
             (IdeaRecord.mk (Some (mkThing "ideas" "k1")) "Test Idea" "d" ["a"; "b"] [] "")
             [EditNotes "draft"; EditNotes "final"] st0 st' saves (rev saves)
             eq_refl eq_refl eq_refl eq_refl Hload Hrun
             (fun t Ht => proj2 (in_rev saves t) Ht)))).
  - vm_compute in Hload. injection Hload as <-. vm_compute in Hrun. discriminate.
Defined.

(** Saves handled out of order lose the latest edit: after the notes are
    typed as ["draft"] then ["final"], if the server handles the second
    save first, the store keeps ["draft"] while the view shows
    ["final"]. *)
Lemma dev_autosave_stale_write :
  match dev_load "ideas:k1" db_one with
  | Some st0 =>
      match dev_run st0 [EditNotes "draft"; EditNotes "final"] with
      | Some (st', [s1; s2]) =>
          dv_development_notes st' = "final" /\
          fst (get_idea_by_id_server "ideas:k1" (run_saves [s2; s1] db_one))
            = Ok (Idea.mk (Some "ideas:k1") "Test Idea" "d" ["a"; "b"] [] "draft")
      | _ => False
      end
  | None => False
  end.
Proof. vm_compute. split; reflexivity. Qed.

(** An idea without an id ([unwrap_or_default] gives [""]) is never
    written by the auto-save: the update is rejected as a malformed id and
    the store is left as it was. *)
Theorem auto_save_without_id (st : DevState) (db : Db) :
  Idea.id (dv_idea st) = None -> auto_save st db = db.
Proof. intros H. unfold auto_save, run_save, auto_save_task. rewrite H. reflexivity. Qed.

Lemma auto_save_without_id_witness :
  Idea.id (Idea.mk None "t" "d" [] [] "") = None /\
  auto_save (mkDevState (Idea.mk None "t" "d" [] [] "") ["x"] "n" "") db_one = db_one.
Proof. split; [reflexivity|]. apply auto_save_without_id. reflexivity. Defined.

(* ------------------------------------------------------------------ *)
(** ** Submitting the form *)

(** A successful submission from the form stores a record with the
    parsed tags and empty checklist and notes under the store's fresh key,
    clears every field, sets the success message, ends the submitting
    state and notifies the parent. *)
Theorem form_submit_success (display : ServerFnError -> string) (k : string)
  (st : FormState) (db : Db) :
  db_fault db = None -> db_docs db !! ("ideas", k) = None ->
  form_onsubmit display k st db =
    (mkFormState "" "" "" false "idea submitted successfully",
     with_docs db (<[("ideas", k) :=
        IdeaRecord.mk (Some (mkThing "ideas" k)) (f_title st) (f_description st)
          (parse_tags (f_tags_input st)) [] ""]> (db_docs db)),
     true).
Proof.
  intros Hf Hfresh. unfold form_onsubmit, submit_idea_server. unfold_store.
  rewrite Hf, Hfresh. reflexivity.
Qed.

Lemma form_submit_success_witness :
  db_fault empty_db = None /\ db_docs empty_db !! ("ideas", "k1") = None /\
  form_onsubmit error_message "k1" (mkFormState "T" "D" " a, b ,," false "") empty_db =
    (mkFormState "" "" "" false "idea submitted successfully",
     with_docs empty_db (<[("ideas", "k1") :=
        IdeaRecord.mk (Some (mkThing "ideas" "k1")) "T" "D" (parse_tags " a, b ,,") [] ""]>
        (db_docs empty_db)),
     true).
Proof.
  split; [reflexivity|]. split; [reflexivity|].
  apply (form_submit_success error_message "k1" (mkFormState "T" "D" " a, b ,," false "") empty_db);
    reflexivity.
Defined.

(** A submission that fails in the store keeps what the user typed,
    shows ["error: "] followed by the error, ends the submitting state,
    does not notify the parent and stores nothing. *)
Theorem form_submit_failure (display : ServerFnError -> string) (k e : string)
  (st : FormState) (db : Db) :
  db_fault db = Some e ->
  form_onsubmit display k st db =
    (mkFormState (f_title st) (f_description st) (f_tags_input st) false
       ("error: " ++ display (StoreError e)), db, false).
Proof. intros Hf. unfold form_onsubmit, submit_idea_server. unfold_store. rewrite Hf. reflexivity. Qed.

Lemma form_submit_failure_witness :
  db_fault (mkDb ∅ (Some "down")) = Some "down" /\
  form_onsubmit error_message "k1" (mkFormState "T" "D" "a" true "") (mkDb ∅ (Some "down")) =
    (mkFormState "T" "D" "a" false ("error: " ++ error_message (StoreError "down")),
     mkDb ∅ (Some "down"), false).
Proof.
  split; [reflexivity|].
  apply (form_submit_failure error_message "k1" "down" (mkFormState "T" "D" "a" true "")).
  reflexivity.
Defined.

(* ------------------------------------------------------------------ *)
(** ** The list's delete button *)

(** Without the user's confirmation the delete button changes nothing and
    triggers no refresh; a confirmed delete of a malformed id changes
    nothing and triggers no refresh either; a confirmed delete of a
    well-formed id on a working store removes exactly that record and
    triggers the refresh. *)
Theorem list_delete_click_spec (id : string) (db : Db) :
  list_delete_click false id db = (db, false) /\
  (length (split_on ":" id) <> 2 -> list_delete_click true id db = (db, false)) /\
  (forall table key, split_on ":" id = [table; key] -> db_fault db = None ->
     snd (list_delete_click true id db) = true /\
     db_docs (fst (list_delete_click true id db)) !! (table, key) = None /\
     (forall tk, tk <> (table, key) ->
        db_docs (fst (list_delete_click true id db)) !! tk = db_docs db !! tk)).
Proof.
  split; [reflexivity|]. split.
  - intros Hlen. unfold list_delete_click, delete_idea_server.
    destruct (split_on ":" id) as [|a [|b [|c rest]]]; try reflexivity.
    exfalso. apply Hlen. reflexivity.
  - intros table key Hs Hf. unfold list_delete_click, delete_idea_server. rewrite Hs.
    unfold_store. rewrite Hf. simpl. split; [reflexivity|]. split.
    + apply lookup_delete_eq.
    + intros tk Hne. apply lookup_delete_ne. congruence.
Qed.

Lemma list_delete_click_spec_witness :
  length (split_on ":" "bad") <> 2 /\ list_delete_click true "bad" db_one = (db_one, false).
Proof.
  assert (H : length (split_on ":" "bad") <> 2) by (vm_compute; discriminate).
  split; [exact H|]. exact (proj1 (proj2 (list_delete_click_spec "bad" db_one)) H).
Defined.

(* ------------------------------------------------------------------ *)
(** ** Listed ideas carry their ids *)

(** On a well-formed store every idea ListAll returns is the conversion
    of a record stored under some key of the [ideas] table and carries the
    id ["ideas:<key>"], so the list shows its develop and delete buttons. *)
Theorem list_all_ids (db : Db) (l : list Idea.t) (db' : Db) :
  db_wf db -> get_all_ideas_server db = (Ok l, db') ->
  forall i, In i l -> exists k r,
    db_docs db !! ("ideas", k) = Some r /\ i = idea_of_record r /\
    Idea.id i = Some ("ideas" ++ ":" ++ k).
Proof.
  intros Hwf Hget i Hi.
  unfold get_all_ideas_server, db_select_all in Hget.
  destruct (db_fault db); [discriminate|]. injection Hget as <- _.
  apply in_map_iff in Hi as [r [<- Hr]].
  apply in_map_iff in Hr as [[[t k] r'] [Hsnd Hin]]. simpl in Hsnd. subst r'.
  apply list_elem_of_In, list_elem_of_filter in Hin as [Ht Hin]. simpl in Ht. subst t.
  apply elem_of_map_to_list in Hin.
  exists k, r. split; [exact Hin|]. split; [reflexivity|].
  unfold idea_of_record. simpl. rewrite (Hwf _ _ _ Hin). reflexivity.
Qed.

Lemma list_all_ids_witness :
  db_wf db_one /\
  get_all_ideas_server db_one
    = (Ok [Idea.mk (Some "ideas:k1") "Test Idea" "d" ["a"; "b"] [] ""], db_one) /\
  exists k r, db_docs db_one !! ("ideas", k) = Some r /\
    Idea.mk (Some "ideas:k1") "Test Idea" "d" ["a"; "b"] [] "" = idea_of_record r /\
    Idea.id (Idea.mk (Some "ideas:k1") "Test Idea" "d" ["a"; "b"] [] "")
      = Some ("ideas" ++ ":" ++ k).
Proof.
  assert (Hget : get_all_ideas_server db_one
    = (Ok [Idea.mk (Some "ideas:k1") "Test Idea" "d" ["a"; "b"] [] ""], db_one))
    by (vm_compute; reflexivity).
  split; [exact db_wf_one|]. split; [exact Hget|].
  exact (list_all_ids db_one _ db_one db_wf_one Hget _ (or_introl eq_refl)).
Defined.

(* ------------------------------------------------------------------ *)
(** ** Submit then ListAll *)

(** On a working store, after a successful Submit under a fresh key,
    ListAll returns a sequence that contains the returned idea. *)
Theorem submit_then_list (k title description : string) (tags : list string) (db : Db) :
  db_fault db = None -> db_docs db !! ("ideas", k) = None ->
  exists i l,
    fst (submit_idea_server k title description tags db) = Ok i /\
    get_all_ideas_server (snd (submit_idea_server k title description tags db))
      = (Ok l, snd (submit_idea_server k title description tags db)) /\
    In i l.
Proof.
  intros Hf Hfresh. unfold submit_idea_server. unfold_store. rewrite Hf, Hfresh. simpl.
  set (r := set_thing (mkThing "ideas" k) (IdeaRecord.mk None title description tags [] "")).
  eexists. eexists. split; [reflexivity|]. split.
  - unfold get_all_ideas_server, db_select_all. simpl. reflexivity.
  - apply in_map. apply in_map_iff. exists (("ideas", k), r). split; [reflexivity|].
    apply list_elem_of_In, list_elem_of_filter. split; [reflexivity|].
    apply elem_of_map_to_list. apply lookup_insert_eq.
Qed.

Lemma submit_then_list_witness :
  db_fault db_one = None /\ db_docs db_one !! ("ideas", "k2") = None /\
  exists i l,
    fst (submit_idea_server "k2" "t" "d" [] db_one) = Ok i /\
    get_all_ideas_server (snd (submit_idea_server "k2" "t" "d" [] db_one))
      = (Ok l, snd (submit_idea_server "k2" "t" "d" [] db_one)) /\
    In i l.
Proof.
  split; [reflexivity|]. split; [reflexivity|].
  apply submit_then_list; reflexivity.
Defined.

(* ------------------------------------------------------------------ *)
(** ** Rendered ids parse back *)

(** A record id whose table and key hold no colon renders to a string
    that GetById parses back to the same table and key: the id the
    service hands out fetches that very record. *)
Theorem rendered_id_fetches (db : Db) (table key : string) (r : IdeaRecord.t) :
  count_char ":" table = 0 -> count_char ":" key = 0 ->
  db_wf db -> db_fault db = None -> db_docs db !! (table, key) = Some r ->
  Idea.id (idea_of_record r) = Some (thing_to_string (mkThing table key)) /\
  get_idea_by_id_server (thing_to_string (mkThing table key)) db = (Ok (idea_of_record r), db).
Proof.
  intros Ht Hk Hwf Hf Hr. split.
  - unfold idea_of_record. simpl. rewrite (Hwf _ _ _ Hr). reflexivity.
  - unfold get_idea_by_id_server, thing_to_string. simpl.
    rewrite (split_render table key Ht Hk). unfold_store. rewrite Hf, Hr. reflexivity.
Qed.

Lemma rendered_id_fetches_witness :
  Idea.id (idea_of_record (IdeaRecord.mk (Some (mkThing "ideas" "k1")) "Test Idea" "d" ["a"; "b"] [] ""))
    = Some (thing_to_string (mkThing "ideas" "k1")) /\
  get_idea_by_id_server (thing_to_string (mkThing "ideas" "k1")) db_one
    = (Ok (idea_of_record
             (IdeaRecord.mk (Some (mkThing "ideas" "k1")) "Test Idea" "d" ["a"; "b"] [] "")), db_one).
Proof. apply rendered_id_fetches; [reflexivity|reflexivity|exact db_wf_one|reflexivity|reflexivity]. Defined.
